(** * deen_api.client: the hadith-lookup client, embedded and verified

    The development follows [src/deen_api/client.py].  Python dictionaries
    are finite maps with string keys, integers are [Z], strings are
    [string].  A method of [ImaniroDeenAPIClient] is a computation over a
    [World] that holds the client object ([self]) and the log of the
    requests handed to the HTTP transport; a Python exception is the
    [Raise] branch of [result].  What the module imports and this
    repository's source tree does not contain ([requests], [.models],
    [.exceptions]) is gathered in the class [Externals] or modelled from
    the specification, and says so. *)

From Stdlib Require Import ZArith String Ascii List Lia.
From stdpp Require Import base option gmap strings list fin_maps pretty.

Local Open Scope string_scope.
Local Open Scope Z_scope.
Local Open Scope list_scope.

(** ** Python values *)

(** The values that travel in request bodies and in decoded JSON. *)
#[local] Set Warnings "-register-all".
Inductive value : Type :=
| VNone
| VBool (b : bool)
| VInt (z : Z)
| VStr (s : string)
| VList (l : list value)
| VDict (d : list (string * value)).

(** [str(n)] and [f"{n}"] for an integer: decimal digits, with a minus sign
    for negative numbers. *)
Definition str_int (n : Z) : string := pretty n.

(** ** Strings *)

(** [s.rstrip(c)] for a one-character argument: every trailing [c] goes. *)
Fixpoint rstrip (c : ascii) (s : string) : string :=
  match s with
  | EmptyString => EmptyString
  | String a s' =>
      match rstrip c s' with
      | EmptyString => if Ascii.eqb a c then EmptyString else String a EmptyString
      | r => String a r
      end
  end.

(** [n] copies of the character [c]. *)
Fixpoint replicate_char (n : nat) (c : ascii) : string :=
  match n with
  | O => EmptyString
  | S n' => String c (replicate_char n' c)
  end.

(** [starts_with s m]: [m.startswith(s)]. *)
Fixpoint starts_with (s m : string) : bool :=
  match s, m with
  | EmptyString, _ => true
  | String a s', String b m' => Ascii.eqb a b && starts_with s' m'
  | String _ _, EmptyString => false
  end.

(** [contains s m]: Python's [s in m], [s] occurs in [m] as a substring. *)
Fixpoint contains (s m : string) : bool :=
  starts_with s m ||
  match m with
  | EmptyString => false
  | String _ m' => contains s m'
  end.

(** ** Exceptions and results *)

(** Modelled from the spec: [exceptions.py] is not part of the source tree.
    Section 7 of the specification lists the error kinds; each is a class
    of its own, the five status-specific ones and the generic
    [DeenAPIError] carry a message, and none of them is a [requests]
    exception.  [ValueError] is Python's built-in (the specification's
    InvalidArgument), [RequestException] stands for
    [requests.exceptions.RequestException] and its subclasses, carrying
    [str(e)], and [OtherException] for whatever else a callee may raise. *)
Inductive exn : Type :=
| ValueError (msg : string)
| AuthenticationError (msg : string)
| InsufficientBalanceError (msg : string)
| NotFoundError (msg : string)
| RateLimitError (msg : string)
| ServerError (msg : string)
| DeenAPIError (msg : string)
| RequestException (desc : string)
| OtherException (desc : string).

(** [str(e)]. *)
Definition str_exn (e : exn) : string :=
  match e with
  | ValueError m | AuthenticationError m | InsufficientBalanceError m
  | NotFoundError m | RateLimitError m | ServerError m | DeenAPIError m
  | RequestException m | OtherException m => m
  end.

(** [isinstance(e, requests.exceptions.RequestException)]. *)
Definition is_RequestException (e : exn) : bool :=
  match e with
  | RequestException _ => true
  | _ => false
  end.

Inductive result (A : Type) : Type :=
| Ok (a : A)
| Raise (e : exn).
Arguments Ok {A} a.
Arguments Raise {A} e.

Definition result_bind {A B : Type} (r : result A) (k : A → result B) : result B :=
  match r with
  | Ok a => k a
  | Raise e => Raise e
  end.

(** [[f(x) for x in l]]: left to right, the first exception ends it. *)
Fixpoint list_comprehension {A B : Type} (f : A → result B) (l : list A)
  : result (list B) :=
  match l with
  | [] => Ok []
  | x :: l' =>
      result_bind (f x) (λ y,
      result_bind (list_comprehension f l') (λ ys, Ok (y :: ys)))
  end.

(** ** Requests, responses, the client object *)

Inductive Method : Type := GET | POST.

Record Request : Type := {
  method : Method;
  url : string;
  req_headers : gmap string string;
  json : option (gmap string value)
}.

(** What the client reads of a [requests.Response]. *)
Record Response : Type := {
  status_code : Z;
  text : string
}.

Record Session : Type := {
  headers : gmap string string
}.

Record Client : Type := {
  api_key : string;
  base_url : string;
  session : Session
}.

(** The client object and the requests handed to the transport so far. *)
Record World : Type := {
  self : Client;
  sent : list Request
}.

(** ** Computations *)

Definition M (A : Type) : Type := World → result A * World.

Definition ret {A : Type} (a : A) : M A := λ w, (Ok a, w).

Definition raise {A : Type} (e : exn) : M A := λ w, (Raise e, w).

Definition bind {A B : Type} (m : M A) (k : A → M B) : M B :=
  λ w, match m w with
       | (Ok a, w') => k a w'
       | (Raise e, w') => (Raise e, w')
       end.

Definition lift {A : Type} (r : result A) : M A := λ w, (r, w).

Definition get_self : M Client := λ w, (Ok (self w), w).

Notation "x <- m ;; k" := (bind m (λ x, k))
  (at level 20, m at level 99, k at level 200, only parsing).

(** [try: body  except RequestException as e: handler(e)]: an exception of
    another class passes through. *)
Definition try_except_RequestException {A : Type}
    (body : M A) (handler : exn → M A) : M A :=
  λ w, match body w with
       | (Raise e, w') =>
           if is_RequestException e then handler e w' else (Raise e, w')
       | (Ok a, w') => (Ok a, w')
       end.

(** [d.update(other)]: the pairs of [other] are written over [d]. *)
Definition dict_update {V : Type} (d other : gmap string V) : gmap string V :=
  other ∪ d.

(** [params or {}]: a dictionary is false when it has no entries. *)
Definition or_empty (params : option (gmap string value)) : gmap string value :=
  match params with
  | Some d => if Nat.eqb (size d) 0 then ∅ else d
  | None => ∅
  end.

(** ** What the module imports *)

(** [requests] is a library of its own, and [models.py] is not part of the
    source tree: the client is verified for every behaviour of both.
    [transport history request] is what [Session.request] comes back with,
    a response or an exception, and may depend on everything sent before;
    [Response_json] is [Response.json()]; [Hadith_from_dict] and
    [APIResponse_from_dict] are the two [from_dict] class methods and
    [APIResponse_data] the attribute [data]; [default_headers] are the
    headers a fresh [requests.Session()] starts with. *)
Class Externals : Type := {
  Hadith : Type;
  APIResponse : Type;
  Hadith_from_dict : value → result Hadith;
  APIResponse_from_dict : value → result APIResponse;
  APIResponse_data : APIResponse → list value;
  Response_json : Response → result value;
  transport : list Request → Request → result Response;
  default_headers : gmap string string
}.

(** The arguments of [get_hadiths].  An optional parameter left out, or
    given as [None], is [None]; [kwargs] holds the extra keywords. *)
Record search_args : Type := {
  book : option string;
  hadith_number : option string;
  narrator : option string;
  category : option string;
  authenticity : option string;
  language : string;
  max_limit : Z;
  kwargs : gmap string value
}.

(** A call that passes nothing: every parameter at its default. *)
Definition default_args : search_args := {|
  book := None;
  hadith_number := None;
  narrator := None;
  category := None;
  authenticity := None;
  language := "English";
  max_limit := 1;
  kwargs := ∅
|}.

(** The parameter names of [get_hadiths].  Python binds a keyword argument
    with one of these names to the parameter, so none of them is ever a
    key of [kwargs]. *)
Definition parameter_names : list string :=
  ["self"; "book"; "hadith_number"; "narrator"; "category"; "authenticity";
   "language"; "max_limit"].

Definition valid_kwargs (kw : gmap string value) : bool :=
  forallb (λ k, bool_decide (kw !! k = None)) parameter_names.

Definition default_base_url : string := "https://deen-api.imaniro.com/api/v1".

(** Lines 78-98 of [get_hadiths]: the dictionary [params] when it is handed
    to [_make_request]. *)
Definition build_params (a : search_args) : gmap string value :=
  let params : gmap string value := ∅ in
  let params := match book a with
                | Some v => <["book" := VStr v]> params
                | None => params
                end in
  let params := match hadith_number a with
                | Some v => <["hadithNumber" := VStr v]> params
                | None => params
                end in
  let params := match narrator a with
                | Some v => <["narrator" := VStr v]> params
                | None => params
                end in
  let params := match category a with
                | Some v => <["category" := VStr v]> params
                | None => params
                end in
  let params := match authenticity a with
                | Some v => <["authenticity" := VStr v]> params
                | None => params
                end in
  let params := <["language" := VStr (language a)]> params in
  let params := <["maxLimit" := VInt (max_limit a)]> params in
  dict_update params (kwargs a).

Section ImaniroDeenAPIClient.
Context `{Externals}.

(** [requests.Session()] and [session.headers.update(d)]. *)
Definition Session_new : Session := {| headers := default_headers |}.

Definition Session_headers_update (s : Session) (d : gmap string string)
  : Session :=
  {| headers := dict_update (headers s) d |}.

(** [session.request(method, url, json=...)]: the request goes to the
    transport with the session's headers and is logged. *)
Definition Session_request (s : Session) (m : Method) (u : string)
    (body : option (gmap string value)) : M Response :=
  λ w, let request := {| method := m; url := u;
                         req_headers := headers s; json := body |} in
       (transport (sent w) request,
        {| self := self w; sent := sent w ++ [request] |}).

Definition Session_post (s : Session) (u : string)
    (body : gmap string value) : M Response :=
  Session_request s POST u (Some body).

Definition Session_get (s : Session) (u : string) : M Response :=
  Session_request s GET u None.

(** [ImaniroDeenAPIClient(api_key, base_url=...)]. *)
Definition __init__ (api_key : string) (base_url : option string) : Client :=
  let base_url := default default_base_url base_url in
  {| api_key := api_key;
     base_url := rstrip "/" base_url;
     session := Session_headers_update Session_new
                  (<["Content-Type" := "application/json"]>
                     (<["X-API-Key" := api_key]> ∅)) |}.

Definition _handle_response (response : Response) : result value :=
  if status_code response =? 401 then
    Raise (AuthenticationError "Invalid API key")
  else if status_code response =? 402 then
    Raise (InsufficientBalanceError "Insufficient balance to process request")
  else if status_code response =? 404 then
    Raise (NotFoundError "Resource not found")
  else if status_code response =? 429 then
    Raise (RateLimitError "Rate limit exceeded")
  else if status_code response >=? 500 then
    Raise (ServerError "Server error occurred")
  else if negb (status_code response =? 200) then
    Raise (DeenAPIError ("API error: " +:+ str_int (status_code response)
                         +:+ " - " +:+ text response))
  else Response_json response.

Definition _make_request (endpoint : string)
    (params : option (gmap string value)) : M APIResponse :=
  this <- get_self ;;
  let url := base_url this +:+ "/" +:+ endpoint in
  try_except_RequestException
    (response <- Session_post (session this) url (or_empty params) ;;
     data <- lift (_handle_response response) ;;
     lift (APIResponse_from_dict data))
    (λ e, raise (DeenAPIError ("Request failed: " +:+ str_exn e))).

Definition get_hadiths (a : search_args) : M (list Hadith) :=
  if max_limit a >? 500 then raise (ValueError "max_limit cannot exceed 500")
  else if max_limit a <? 1 then raise (ValueError "max_limit must be at least 1")
  else
    response <- _make_request "hadiths" (Some (build_params a)) ;;
    lift (list_comprehension Hadith_from_dict (APIResponse_data response)).

Definition check_status : M value :=
  this <- get_self ;;
  let url := base_url this +:+ "/status" in
  try_except_RequestException
    (response <- Session_get (session this) url ;;
     if status_code response =? 200 then lift (Response_json response)
     else raise (DeenAPIError ("Status check failed: "
                               +:+ str_int (status_code response))))
    (λ e, raise (DeenAPIError ("Status check request failed: " +:+ str_exn e))).

(** A caller's use of a client: any sequence of the two public methods,
    results dropped, effects kept. *)
Inductive call : Type :=
| call_get_hadiths (a : search_args)
| call_check_status.

Definition run_call (c : call) (w : World) : World :=
  match c with
  | call_get_hadiths a => snd (get_hadiths a w)
  | call_check_status => snd (check_status w)
  end.

Definition run_calls (cs : list call) (w : World) : World :=
  fold_left (λ w c, run_call c w) cs w.

(** The request a search sends, and the one a status check sends. *)
Definition search_request (c : Client) (a : search_args) : Request :=
  {| method := POST;
     url := base_url c +:+ "/" +:+ "hadiths";
     req_headers := headers (session c);
     json := Some (build_params a) |}.

Definition status_request (c : Client) : Request :=
  {| method := GET;
     url := base_url c +:+ "/status";
     req_headers := headers (session c);
     json := None |}.

End ImaniroDeenAPIClient.

(** ** A stand-in for [models.py] and a mocked transport *)

Module models.

(** Modelled from the spec: [models.py] is not part of the source tree.
    Section 3 and section 6 of the specification give a Hadith the fields
    book, hadith number, narrator, category, authenticity, language and
    text, read from the record's keys as the service names them. *)
Record Hadith : Type := {
  book : string;
  hadith_number : string;
  narrator : string;
  category : string;
  authenticity : string;
  language : string;
  text : string
}.

(** Modelled from the spec: the envelope wraps the decoded payload and
    exposes its record list as [data]. *)
Record APIResponse : Type := {
  data : list value;
  payload : value
}.

Fixpoint assoc (k : string) (d : list (string * value)) : option value :=
  match d with
  | [] => None
  | (k', v) :: d' => if String.eqb k k' then Some v else assoc k d'
  end.

(** [d[k]] for a key that has to hold a string. *)
Definition str_field (k : string) (d : list (string * value)) : result string :=
  match assoc k d with
  | Some (VStr s) => Ok s
  | Some _ => Raise (OtherException ("TypeError: " +:+ k))
  | None => Raise (OtherException ("KeyError: " +:+ k))
  end.

(** Modelled from the spec: [Hadith.from_dict], absent with [models.py];
    one Hadith from one record object, field by field. *)
Definition Hadith_from_dict (item : value) : result Hadith :=
  match item with
  | VDict d =>
      result_bind (str_field "book" d) (λ b,
      result_bind (str_field "hadithNumber" d) (λ n,
      result_bind (str_field "narrator" d) (λ r,
      result_bind (str_field "category" d) (λ c,
      result_bind (str_field "authenticity" d) (λ a,
      result_bind (str_field "language" d) (λ l,
      result_bind (str_field "text" d) (λ t,
      Ok {| book := b; hadith_number := n; narrator := r; category := c;
            authenticity := a; language := l; text := t |})))))))
  | _ => Raise (OtherException "TypeError: record")
  end.

(** Modelled from the spec: [APIResponse.from_dict], absent with
    [models.py]; the envelope has to hold a sequence under [data]. *)
Definition APIResponse_from_dict (body : value) : result APIResponse :=
  match body with
  | VDict d =>
      match assoc "data" d with
      | Some (VList l) => Ok {| data := l; payload := body |}
      | Some _ => Raise (OtherException "TypeError: data")
      | None => Raise (OtherException "KeyError: data")
      end
  | _ => Raise (OtherException "TypeError: envelope")
  end.

End models.

(** A test double: the transport answers [reply] whatever it is sent, and
    [Response.json()] gives [decoded]. *)
Definition mock (reply : result Response) (decoded : result value) : Externals := {|
  Hadith := models.Hadith;
  APIResponse := models.APIResponse;
  Hadith_from_dict := models.Hadith_from_dict;
  APIResponse_from_dict := models.APIResponse_from_dict;
  APIResponse_data := models.data;
  Response_json := λ _, decoded;
  transport := λ _ _, reply;
  default_headers := ∅
|}.

(** The record and the envelope of the specification's example. *)
Definition sample_record (number : string) : value :=
  VDict [("book", VStr "Sahih al-Bukhari"); ("hadithNumber", VStr number);
         ("narrator", VStr "Umar"); ("category", VStr "intentions");
         ("authenticity", VStr "Sahih"); ("language", VStr "English");
         ("text", VStr "...")].

Definition sample_envelope (records : list value) : value :=
  VDict [("data", VList records)].

Definition sample_hadith (number : string) : models.Hadith := {|
  models.book := "Sahih al-Bukhari";
  models.hadith_number := number;
  models.narrator := "Umar";
  models.category := "intentions";
  models.authenticity := "Sahih";
  models.language := "English";
  models.text := "..."
|}.

(** A client as a caller has it after construction, nothing sent yet. *)
Definition fresh_world `{Externals} (key : string) (base : option string) : World :=
  {| self := __init__ key base; sent := [] |}.

(** The world after a request: the same client, one more entry in the log. *)
Definition logged (w : World) (request : Request) : World :=
  {| self := self w; sent := sent w ++ [request] |}.

(** The statuses to which the table of [_handle_response] gives no row of
    their own. *)
Definition unmapped (status : Z) : Prop :=
  status ≠ 200 ∧ status ≠ 401 ∧ status ≠ 402 ∧ status ≠ 404 ∧
  status ≠ 429 ∧ status < 500.

(** The five optional filters of [get_hadiths]: the key each one is sent
    under, and the argument the caller gave for it. *)
Definition optional_filters (a : search_args) : list (string * option string) :=
  [("book", book a); ("hadithNumber", hadith_number a);
   ("narrator", narrator a); ("category", category a);
   ("authenticity", authenticity a)].

(** The reading of the request body that takes no account of the extra
    keywords: a filter's key is in the body exactly when its parameter was
    given. *)
Definition filters_iff_supplied (a : search_args) (body : gmap string value)
  : Prop :=
  ∀ key arg, (key, arg) ∈ optional_filters a →
    (is_Some (body !! key) ↔ is_Some arg).

(** [client.get_hadiths(hadithNumber=None)]: the keyword is not a parameter
    name, so it lands in [kwargs]. *)
Definition null_number_args : search_args := {|
  book := None;
  hadith_number := None;
  narrator := None;
  category := None;
  authenticity := None;
  language := "English";
  max_limit := 1;
  kwargs := {["hadithNumber" := VNone]}
|}.

(** [client.get_hadiths(maxLimit=1000)], likewise. *)
Definition oversized_args : search_args := {|
  book := None;
  hadith_number := None;
  narrator := None;
  category := None;
  authenticity := None;
  language := "English";
  max_limit := 1;
  kwargs := {["maxLimit" := VInt 1000]}
|}.

(** [client.get_hadiths(max_limit=n)]. *)
Definition with_limit (n : Z) : search_args := {|
  book := None;
  hadith_number := None;
  narrator := None;
  category := None;
  authenticity := None;
  language := "English";
  max_limit := n;
  kwargs := ∅
|}.

(** Three mocked services: one that answers 403, one that answers 200 with
    two records, one that cannot be reached. *)
Definition forbidden : Response := {| status_code := 403; text := "Forbidden" |}.

Definition two_records : Response := {| status_code := 200; text := "(two records)" |}.

Definition service_forbidden : Externals :=
  mock (Ok forbidden) (Raise (RequestException "Expecting value")).

Definition service_two_records : Externals :=
  mock (Ok two_records)
    (Ok (sample_envelope [sample_record "1"; sample_record "2"])).


(** The requests one call hands to the transport: a search whose limit
    passes the check sends the search request, a search whose limit does
    not sends nothing, a status check sends the status request. *)
Definition call_requests (c : Client) (k : call) : list Request :=
  match k with
  | call_get_hadiths a =>
      if (1 <=? max_limit a) && (max_limit a <=? 500)
      then [search_request c a] else []
  | call_check_status => [status_request c]
  end.

(** More mocked services, all answering 200: one whose second record is
    not an object, one whose envelope has no [data], one whose body
    [Response.json()] cannot decode. *)
Definition service_bad_record : Externals :=
  mock (Ok two_records)
    (Ok (sample_envelope [sample_record "1"; VNone; sample_record "3"])).

Definition service_no_data : Externals :=
  mock (Ok two_records) (Ok (VDict [])).

Definition service_garbled : Externals :=
  mock (Ok two_records) (Raise (RequestException "Expecting value")).

(** A service that answers 403 with the code itself as its body. *)
Definition forbidden_echo : Response := {| status_code := 403; text := "403" |}.

Definition service_echo : Externals :=
  mock (Ok forbidden_echo) (Raise (RequestException "Expecting value")).

(** A service that answers 403 every time, the first time with the body
    Forbidden and from then on with a longer one. *)
Definition denied : Response :=
  {| status_code := 403; text := "Access denied: this key may not be used" |}.

Definition service_two_refusals : Externals := {|
  Hadith := models.Hadith;
  APIResponse := models.APIResponse;
  Hadith_from_dict := models.Hadith_from_dict;
  APIResponse_from_dict := models.APIResponse_from_dict;
  APIResponse_data := models.data;
  Response_json := λ _, Raise (RequestException "Expecting value");
  transport := λ history _,
    match history with
    | [] => Ok forbidden
    | _ :: _ => Ok denied
    end;
  default_headers := ∅
|}.

(** * Properties *)

(** ** Strings *)

Section string_lemmas.

#[local] Arguments String.append !s1 s2 : simpl nomatch.

Lemma starts_with_app (s q : string) : starts_with s (s +:+ q) = true.
Proof.
induction s as [|a s IH]; simpl; [done|].
by rewrite Ascii.eqb_refl, IH.
Qed.

Lemma contains_app (s p q : string) : contains s (p +:+ s +:+ q) = true.
Proof.
induction p as [|a p IH]; simpl.
- destruct (s +:+ q) eqn:E; simpl; rewrite <- E, starts_with_app; done.
- rewrite IH. apply orb_true_r.
Qed.

Lemma contains_refl (s : string) : contains s s = true.
Proof.
assert (s +:+ "" = s) as Hs by (induction s; simpl; congruence).
rewrite <- Hs at 2. apply (contains_app s "" "").
Qed.

Lemma contains_app_l (s p m : string) :
contains s m = true → contains s (p +:+ m) = true.
Proof.
intros Hm. induction p as [|a p IH]; simpl; [done|].
rewrite IH. apply orb_true_r.
Qed.

Lemma starts_with_inv (s m : string) :
starts_with s m = true → ∃ q, m = s +:+ q.
Proof.
revert m. induction s as [|a s IH]; intros m Hm; simpl in *.
- by exists m.
- destruct m as [|b m]; [done|].
  apply andb_true_iff in Hm as [Hab Hm].
  apply Ascii.eqb_eq in Hab as ->.
  destruct (IH _ Hm) as [q ->]. by exists q.
Qed.

(** [contains] is the substring relation. *)
Lemma contains_spec (s m : string) :
contains s m = true ↔ ∃ p q, m = p +:+ s +:+ q.
Proof.
split.
- induction m as [|b m IH]; simpl; intros Hm.
  + rewrite orb_false_r in Hm. apply starts_with_inv in Hm as [q ->].
    by exists "", q.
  + apply orb_true_iff in Hm as [Hm|Hm].
    * apply starts_with_inv in Hm as [q ->]. by exists "", q.
    * destruct (IH Hm) as (p & q & ->). by exists (String b p), q.
- intros (p & q & ->). apply contains_app.
Qed.

Lemma rstrip_decompose (c : ascii) (s : string) :
∃ n, s = rstrip c s +:+ replicate_char n c.
Proof.
induction s as [|a s [n IH]]; simpl.
- by exists 0%nat.
- destruct (rstrip c s) as [|b r] eqn:E; rewrite ?E in IH.
  + destruct (Ascii.eqb a c) eqn:Hac.
    * apply Ascii.eqb_eq in Hac as ->. exists (S n). simpl in *. congruence.
    * exists n. simpl in *. congruence.
  + exists n. simpl in *. congruence.
Qed.

Lemma rstrip_no_trailing (c : ascii) (s t : string) :
rstrip c s ≠ t +:+ String c "".
Proof.
revert t. induction s as [|a s IH]; intros t; simpl.
- by destruct t.
- destruct (rstrip c s) as [|b r] eqn:E.
  + destruct (Ascii.eqb a c) eqn:Hac; [by destruct t|].
    destruct t as [|a' t]; simpl.
    * intros [= ->]. by rewrite Ascii.eqb_refl in Hac.
    * intros [= _ Ht]. by destruct t.
  + destruct t as [|a' t]; simpl; [done|].
    intros [= _ Ht]. by apply (IH t).
Qed.

Lemma length_append (s t : string) :
  String.length (s +:+ t) = (String.length s + String.length t)%nat.
Proof. induction s as [|a s IH]; simpl; [done|]. by rewrite IH. Qed.

(** A text cannot occur in a shorter one. *)
Lemma contains_longer (s m : string) :
  (String.length m < String.length s)%nat → contains s m = false.
Proof.
  intros Hlen. destruct (contains s m) eqn:Hc; [|done].
  apply contains_spec in Hc as (p & q & ->).
  rewrite !length_append in Hlen. lia.
Qed.

End string_lemmas.

Lemma str_int_decimal :
  str_int 200 = "200" ∧ str_int 403 = "403" ∧ str_int 0 = "0" ∧
  str_int (-5) = "-5".
Proof. by vm_compute. Qed.

(** ** The client *)

Ltac in_list := apply list_elem_of_In; simpl; auto 10.

Section properties.
Context `{Externals}.

Implicit Types (a : search_args) (w : World) (r : Response).

Lemma or_empty_Some (d : gmap string value) : or_empty (Some d) = d.
Proof.
  unfold or_empty. destruct (Nat.eqb_spec (size d) 0) as [Hd|]; [|done].
  symmetry. by apply map_size_empty_inv.
Qed.

Ltac unfold_client :=
  unfold get_hadiths, check_status, _make_request,
    try_except_RequestException, bind, lift, raise, get_self,
    Session_post, Session_get, Session_request, search_request,
    status_request, logged;
  rewrite ?or_empty_Some; simpl.

Ltac in_range a :=
  let E1 := fresh in let E2 := fresh in
  destruct (Z.gtb_spec (max_limit a) 500) as [E1|E1]; [lia|];
  destruct (Z.ltb_spec (max_limit a) 1) as [E2|E2]; [lia|]; clear E1 E2.

(** *** The validation of [max_limit] *)

Lemma get_hadiths_rejects a w :
  ¬ (1 ≤ max_limit a ≤ 500) →
  ∃ msg, get_hadiths a w = (Raise (ValueError msg), w).
Proof.
  intros Hout. unfold get_hadiths, raise.
  destruct (Z.gtb_spec (max_limit a) 500); [by eexists|].
  destruct (Z.ltb_spec (max_limit a) 1); [by eexists|lia].
Qed.

(** In range, exactly the search request is handed to the transport,
    whatever comes back. *)
Lemma get_hadiths_sends a w :
  1 ≤ max_limit a ≤ 500 →
  snd (get_hadiths a w) = logged w (search_request (self w) a).
Proof.
  intros [Hlo Hhi]. unfold_client. in_range a.
  destruct (transport _ _) as [r|e]; simpl.
  - destruct (_handle_response r) as [v|e]; simpl.
    + destruct (APIResponse_from_dict v) as [resp|e]; simpl; [done|].
      by destruct (is_RequestException e).
    + by destruct (is_RequestException e).
  - by destruct (is_RequestException e).
Qed.

(** *** What a search makes of the transport's answer *)


Lemma get_hadiths_status_failure a w r (e : exn) :
  1 ≤ max_limit a ≤ 500 →
  transport (sent w) (search_request (self w) a) = Ok r →
  _handle_response r = Raise e →
  is_RequestException e = false →
  fst (get_hadiths a w) = Raise e.
Proof.
  intros [Hlo Hhi] Ht Hr He. unfold_client. in_range a.
  unfold search_request in Ht. rewrite Ht. simpl. rewrite Hr. simpl.
  by rewrite He.
Qed.


Lemma get_hadiths_envelope a w r (v : value) (resp : APIResponse) :
  1 ≤ max_limit a ≤ 500 →
  transport (sent w) (search_request (self w) a) = Ok r →
  _handle_response r = Ok v →
  APIResponse_from_dict v = Ok resp →
  fst (get_hadiths a w)
  = list_comprehension Hadith_from_dict (APIResponse_data resp).
Proof.
  intros [Hlo Hhi] Ht Hr Hv. unfold_client. in_range a.
  unfold search_request in Ht. rewrite Ht. simpl. rewrite Hr. simpl.
  by rewrite Hv.
Qed.

(** *** The status table of [_handle_response] *)

Ltac skip_rows r :=
  destruct (Z.eqb_spec (status_code r) 401); [lia|];
  destruct (Z.eqb_spec (status_code r) 402); [lia|];
  destruct (Z.eqb_spec (status_code r) 404); [lia|];
  destruct (Z.eqb_spec (status_code r) 429); [lia|].

Lemma handle_response_200 r :
  status_code r = 200 → _handle_response r = Response_json r.
Proof. intros E. unfold _handle_response. by rewrite E. Qed.

Lemma handle_response_401 r :
  status_code r = 401 →
  _handle_response r = Raise (AuthenticationError "Invalid API key").
Proof. intros E. unfold _handle_response. by rewrite E. Qed.

Lemma handle_response_402 r :
  status_code r = 402 →
  _handle_response r
  = Raise (InsufficientBalanceError "Insufficient balance to process request").
Proof. intros E. unfold _handle_response. by rewrite E. Qed.

Lemma handle_response_404 r :
  status_code r = 404 →
  _handle_response r = Raise (NotFoundError "Resource not found").
Proof. intros E. unfold _handle_response. by rewrite E. Qed.

Lemma handle_response_429 r :
  status_code r = 429 →
  _handle_response r = Raise (RateLimitError "Rate limit exceeded").
Proof. intros E. unfold _handle_response. by rewrite E. Qed.

Lemma handle_response_server r :
  500 ≤ status_code r →
  _handle_response r = Raise (ServerError "Server error occurred").
Proof.
  intros E. unfold _handle_response.
  skip_rows r. destruct (Z.geb_spec (status_code r) 500); [done|lia].
Qed.

Lemma handle_response_other r :
  unmapped (status_code r) →
  _handle_response r
  = Raise (DeenAPIError ("API error: " +:+ str_int (status_code r)
                         +:+ " - " +:+ text r)).
Proof.
  intros (? & ? & ? & ? & ? & ?). unfold _handle_response.
  skip_rows r. destruct (Z.geb_spec (status_code r) 500); [lia|].
  destruct (Z.eqb_spec (status_code r) 200); [lia|done].
Qed.

Lemma generic_message_contains (status : Z) (body : string) :
  contains (str_int status)
    ("API error: " +:+ str_int status +:+ " - " +:+ body) = true ∧
  contains body ("API error: " +:+ str_int status +:+ " - " +:+ body) = true.
Proof.
  split; [apply contains_app|].
  do 3 apply contains_app_l. apply contains_refl.
Qed.

(** *** The request body *)

Lemma build_params_kwargs a (k : string) (v : value) :
  kwargs a !! k = Some v → build_params a !! k = Some v.
Proof. intros Hk. unfold build_params, dict_update. by apply lookup_union_Some_l. Qed.

Lemma build_params_filter a (key : string) (arg : option string) :
  (key, arg) ∈ optional_filters a →
  kwargs a !! key = None →
  build_params a !! key = VStr <$> arg.
Proof.
  unfold optional_filters. rewrite !elem_of_cons, elem_of_nil.
  intros Hin Hk. unfold build_params, dict_update.
  rewrite lookup_union_r by done.
  destruct Hin as [E|[E|[E|[E|[E|[]]]]]]; injection E as -> ->;
    destruct (book a), (hadith_number a), (narrator a), (category a),
      (authenticity a); by simplify_map_eq.
Qed.

Lemma build_params_language a :
  kwargs a !! "language" = None →
  build_params a !! "language" = Some (VStr (language a)).
Proof.
  intros Hk. unfold build_params, dict_update.
  rewrite lookup_union_r by done. by simplify_map_eq.
Qed.

Lemma build_params_maxLimit a :
  kwargs a !! "maxLimit" = None →
  build_params a !! "maxLimit" = Some (VInt (max_limit a)).
Proof.
  intros Hk. unfold build_params, dict_update.
  rewrite lookup_union_r by done. by simplify_map_eq.
Qed.

Lemma build_params_other a (k : string) :
  k ∉ ["book"; "hadithNumber"; "narrator"; "category"; "authenticity";
       "language"; "maxLimit"] →
  build_params a !! k = kwargs a !! k.
Proof.
  rewrite !not_elem_of_cons. intros (? & ? & ? & ? & ? & ? & ? & _).
  unfold build_params, dict_update.
  destruct (kwargs a !! k) as [v|] eqn:Hk.
  - by apply lookup_union_Some_l.
  - rewrite lookup_union_r by done.
    destruct (book a), (hadith_number a), (narrator a), (category a),
      (authenticity a); by simplify_map_eq.
Qed.

Lemma valid_kwargs_lookup (kw : gmap string value) (k : string) :
  valid_kwargs kw = true → k ∈ parameter_names → kw !! k = None.
Proof.
  unfold valid_kwargs. rewrite forallb_forall. intros Hall Hk.
  apply list_elem_of_In in Hk. apply Hall in Hk.
  by apply bool_decide_eq_true in Hk.
Qed.

(** *** The status check *)

Lemma check_status_sends w :
  snd (check_status w) = logged w (status_request (self w)).
Proof.
  unfold_client. destruct (transport _ _) as [r|e]; simpl.
  - destruct (status_code r =? 200); simpl.
    + destruct (Response_json r) as [v|e]; simpl; [done|].
      by destruct (is_RequestException e).
    + done.
  - by destruct (is_RequestException e).
Qed.


Lemma check_status_not_200 w r :
  transport (sent w) (status_request (self w)) = Ok r →
  status_code r ≠ 200 →
  fst (check_status w)
  = Raise (DeenAPIError ("Status check failed: " +:+ str_int (status_code r))).
Proof.
  intros Ht Hs. unfold_client. unfold status_request in Ht.
  rewrite Ht. simpl. by destruct (Z.eqb_spec (status_code r) 200).
Qed.


(** *** Decoding the records *)

Lemma list_comprehension_Forall2 {A B : Type} (f : A → result B)
    (l : list A) (ys : list B) :
  list_comprehension f l = Ok ys ↔ Forall2 (λ x y, f x = Ok y) l ys.
Proof.
  revert ys. induction l as [|x l IH]; intros ys; simpl.
  - split.
    + intros [= <-]. constructor.
    + intros Hnil. by inversion Hnil.
  - split.
    + destruct (f x) as [y|e] eqn:Hx; simpl; [|done].
      destruct (list_comprehension f l) as [ys'|e] eqn:Hl; simpl; [|done].
      intros [= <-]. constructor; [done|]. by apply IH.
    + intros Hcons. inversion Hcons as [|? y ? ys' Hx Hl]; subst.
      rewrite Hx. simpl. apply IH in Hl. by rewrite Hl.
Qed.

Lemma handle_response_Ok r (v : value) :
  _handle_response r = Ok v → status_code r = 200 ∧ Response_json r = Ok v.
Proof.
  unfold _handle_response.
  destruct (status_code r =? 401); [done|].
  destruct (status_code r =? 402); [done|].
  destruct (status_code r =? 404); [done|].
  destruct (status_code r =? 429); [done|].
  destruct (status_code r >=? 500); [done|].
  destruct (Z.eqb_spec (status_code r) 200); simpl; done.
Qed.

Lemma get_hadiths_Ok a w (hs : list Hadith) :
  fst (get_hadiths a w) = Ok hs →
  1 ≤ max_limit a ≤ 500 ∧
  ∃ r v resp,
    transport (sent w) (search_request (self w) a) = Ok r ∧
    _handle_response r = Ok v ∧
    APIResponse_from_dict v = Ok resp ∧
    list_comprehension Hadith_from_dict (APIResponse_data resp) = Ok hs.
Proof.
  unfold_client.
  destruct (Z.gtb_spec (max_limit a) 500); [done|].
  destruct (Z.ltb_spec (max_limit a) 1); [done|].
  intros Hok. split; [lia|].
  destruct (transport _ _) as [r|e]; simpl in Hok.
  - destruct (_handle_response r) as [v|e] eqn:Hr; simpl in Hok.
    + destruct (APIResponse_from_dict v) as [resp|e] eqn:Hv; simpl in Hok.
      * by exists r, v, resp.
      * by destruct (is_RequestException e).
    + by destruct (is_RequestException e).
  - by destruct (is_RequestException e).
Qed.

(** *** The client object *)

Lemma run_call_self (c : call) w : self (run_call c w) = self w.
Proof.
  destruct c as [a|]; simpl.
  - destruct (decide (1 ≤ max_limit a ≤ 500)) as [Hin|Hout].
    + by rewrite get_hadiths_sends.
    + destruct (get_hadiths_rejects a w Hout) as [msg ->]. done.
  - by rewrite check_status_sends.
Qed.

Lemma run_calls_self (cs : list call) w : self (run_calls cs w) = self w.
Proof.
  revert w. induction cs as [|c cs IH]; intros w; simpl; [done|].
  unfold run_calls in *. simpl. by rewrite IH, run_call_self.
Qed.

(** ** The claims *)

(** C1.  A search that gets a response from the transport ends as the
    status table says: 200 hands the JSON body to the envelope decoder and
    the records to the Hadith decoder, 401, 402, 404 and 429 raise the
    authentication, insufficient-balance, not-found and rate-limit errors,
    500 and above raise the server error, and every other status raises
    the generic error with a message that contains both the status code in
    decimal and the text of the response.  Every status falls under one
    row. *)
Theorem search_status_table a w r :
  1 ≤ max_limit a ≤ 500 →
  transport (sent w) (search_request (self w) a) = Ok r →
  (status_code r = 200 →
     _handle_response r = Response_json r ∧
     ∀ v resp, Response_json r = Ok v → APIResponse_from_dict v = Ok resp →
       fst (get_hadiths a w)
       = list_comprehension Hadith_from_dict (APIResponse_data resp)) ∧
  (status_code r = 401 →
     fst (get_hadiths a w) = Raise (AuthenticationError "Invalid API key")) ∧
  (status_code r = 402 →
     fst (get_hadiths a w)
     = Raise (InsufficientBalanceError "Insufficient balance to process request")) ∧
  (status_code r = 404 →
     fst (get_hadiths a w) = Raise (NotFoundError "Resource not found")) ∧
  (status_code r = 429 →
     fst (get_hadiths a w) = Raise (RateLimitError "Rate limit exceeded")) ∧
  (500 ≤ status_code r →
     fst (get_hadiths a w) = Raise (ServerError "Server error occurred")) ∧
  (unmapped (status_code r) →
     ∃ msg, fst (get_hadiths a w) = Raise (DeenAPIError msg) ∧
            contains (str_int (status_code r)) msg = true ∧
            contains (text r) msg = true) ∧
  (status_code r = 200 ∨ status_code r = 401 ∨ status_code r = 402 ∨
   status_code r = 404 ∨ status_code r = 429 ∨ 500 ≤ status_code r ∨
   unmapped (status_code r)).
Proof.
  intros Hin Ht. repeat split.
  - by apply handle_response_200.
  - intros v resp Hv Hresp. apply (get_hadiths_envelope a w r v resp); try done.
    by rewrite handle_response_200.
  - intros E. apply (get_hadiths_status_failure a w r); try done.
    by apply handle_response_401.
  - intros E. apply (get_hadiths_status_failure a w r); try done.
    by apply handle_response_402.
  - intros E. apply (get_hadiths_status_failure a w r); try done.
    by apply handle_response_404.
  - intros E. apply (get_hadiths_status_failure a w r); try done.
    by apply handle_response_429.
  - intros E. apply (get_hadiths_status_failure a w r); try done.
    by apply handle_response_server.
  - intros E. eexists. split.
    + apply (get_hadiths_status_failure a w r); try done.
      by apply handle_response_other.
    + apply generic_message_contains.
  - unfold unmapped. lia.
Qed.

(** C2.  With [max_limit] between 1 and 500 a search hands exactly one
    request, the search request, to the transport; with [max_limit]
    outside that range it raises [ValueError] and leaves the world as it
    was, so nothing has been sent. *)
Theorem max_limit_validation a w :
  (1 ≤ max_limit a ≤ 500 →
     sent (snd (get_hadiths a w)) = sent w ++ [search_request (self w) a]) ∧
  (¬ (1 ≤ max_limit a ≤ 500) →
     ∃ msg, get_hadiths a w = (Raise (ValueError msg), w)).
Proof.
  split.
  - intros Hin. by rewrite get_hadiths_sends.
  - apply get_hadiths_rejects.
Qed.

(** C3, as amended.  The body of the request a search sends holds every
    extra keyword with the value the caller gave it, so an extra keyword
    wins over a named field of the same key.  A filter's key is in the body
    exactly when its parameter was given or the extra keywords have that
    key, and without such an extra keyword it holds the parameter's value;
    [language] and [maxLimit] are always in the body, with the parameters'
    values unless an extra keyword has the key; any other key comes from
    the extra keywords alone.  Python never puts a parameter name among the
    extra keywords: then the keys of the four filters named like their
    parameters are in the body exactly when the parameter was given, and
    [language] holds the parameter's value. *)
Theorem request_body_contents a w :
  1 ≤ max_limit a ≤ 500 →
  ∃ request body,
    sent (snd (get_hadiths a w)) = sent w ++ [request] ∧
    json request = Some body ∧
    (∀ k v, kwargs a !! k = Some v → body !! k = Some v) ∧
    (∀ key arg, (key, arg) ∈ optional_filters a →
       (is_Some (body !! key) ↔ is_Some arg ∨ is_Some (kwargs a !! key)) ∧
       (kwargs a !! key = None → body !! key = VStr <$> arg)) ∧
    is_Some (body !! "language") ∧
    is_Some (body !! "maxLimit") ∧
    (kwargs a !! "language" = None →
       body !! "language" = Some (VStr (language a))) ∧
    (kwargs a !! "maxLimit" = None →
       body !! "maxLimit" = Some (VInt (max_limit a))) ∧
    (∀ k, k ∉ ["book"; "hadithNumber"; "narrator"; "category";
               "authenticity"; "language"; "maxLimit"] →
       body !! k = kwargs a !! k) ∧
    (valid_kwargs (kwargs a) = true →
       (is_Some (body !! "book") ↔ is_Some (book a)) ∧
       (is_Some (body !! "narrator") ↔ is_Some (narrator a)) ∧
       (is_Some (body !! "category") ↔ is_Some (category a)) ∧
       (is_Some (body !! "authenticity") ↔ is_Some (authenticity a)) ∧
       body !! "language" = Some (VStr (language a))).
Proof.
  intros Hin. exists (search_request (self w) a), (build_params a).
  assert (∀ key arg, (key, arg) ∈ optional_filters a →
            kwargs a !! key = None →
            (is_Some (build_params a !! key) ↔ is_Some arg)) as Hplain.
  { intros key arg Hk Hnone. rewrite (build_params_filter a key arg Hk Hnone).
    by rewrite fmap_is_Some. }
  split; [by rewrite get_hadiths_sends|]. split; [done|].
  split; [apply build_params_kwargs|]. split; [|split; [|split; [|split]]].
  - intros key arg Hk. split; [|by apply build_params_filter].
    destruct (kwargs a !! key) as [v|] eqn:Hkw.
    + rewrite (build_params_kwargs a key v Hkw). split; eauto.
    + rewrite (Hplain key arg Hk Hkw). split; [by left|].
      intros [?|[? [=]]]. done.
  - destruct (kwargs a !! "language") as [v|] eqn:Hkw.
    + by rewrite (build_params_kwargs a _ v Hkw).
    + by rewrite build_params_language.
  - destruct (kwargs a !! "maxLimit") as [v|] eqn:Hkw.
    + by rewrite (build_params_kwargs a _ v Hkw).
    + by rewrite build_params_maxLimit.
  - apply build_params_language.
  - split; [apply build_params_maxLimit|]. split; [apply build_params_other|].
    intros Hvalid.
    assert (∀ k, k ∈ parameter_names → kwargs a !! k = None) as Hnone.
    { intros k. by apply valid_kwargs_lookup. }
    split_and!.
    + apply (Hplain "book" (book a)); [|apply Hnone]; in_list.
    + apply (Hplain "narrator" (narrator a)); [|apply Hnone]; in_list.
    + apply (Hplain "category" (category a)); [|apply Hnone]; in_list.
    + apply (Hplain "authenticity" (authenticity a)); [|apply Hnone]; in_list.
    + apply build_params_language, Hnone. in_list.
Qed.

(** C4.  A search returns the list [hs] exactly when the limit is in
    range, the transport answers with status 200, the body decodes to an
    envelope, and [hs] matches the envelope's record list position by
    position: as many entries, in the same order, each the decoding of the
    record at its place by the one decoder [Hadith_from_dict], which sees
    nothing of the query. *)
Theorem search_results_follow_records a w (hs : list Hadith) :
  fst (get_hadiths a w) = Ok hs ↔
  1 ≤ max_limit a ≤ 500 ∧
  ∃ r v resp,
    transport (sent w) (search_request (self w) a) = Ok r ∧
    status_code r = 200 ∧
    Response_json r = Ok v ∧
    APIResponse_from_dict v = Ok resp ∧
    Forall2 (λ item h, Hadith_from_dict item = Ok h) (APIResponse_data resp) hs.
Proof.
  split.
  - intros Hok. apply get_hadiths_Ok in Hok as (Hin & r & v & resp & Ht & Hr & Hv & Hl).
    split; [done|]. exists r, v, resp.
    apply handle_response_Ok in Hr as [Hs Hj].
    by apply list_comprehension_Forall2 in Hl.
  - intros (Hin & r & v & resp & Ht & Hs & Hj & Hv & Hl).
    rewrite (get_hadiths_envelope a w r v resp); try done.
    + by apply list_comprehension_Forall2.
    + by rewrite handle_response_200.
Qed.



(** C7.  A search with every parameter at its default sends one POST
    request whose body is the map with the two keys [language], bound to
    the string English, and [maxLimit], bound to 1. *)
Theorem default_search_body w :
  ∃ request,
    sent (snd (get_hadiths default_args w)) = sent w ++ [request] ∧
    method request = POST ∧
    json request
    = Some (<["language" := VStr "English"]> (<["maxLimit" := VInt 1]> ∅)) ∧
    ∀ body, json request = Some body → dom body = {["language"; "maxLimit"]}.
Proof.
  exists (search_request (self w) default_args).
  assert (build_params default_args
          = <["language" := VStr "English"]> (<["maxLimit" := VInt 1]> ∅))
    as Hbody.
  { by vm_compute. }
  split_and!.
  - rewrite get_hadiths_sends; [done|simpl; lia].
  - done.
  - simpl. by rewrite Hbody.
  - simpl. intros body [= <-]. rewrite Hbody, !dom_insert_L, dom_empty_L.
    set_solver.
Qed.

(** C8.  Construction stores the API key as given and the base URL without
    its trailing slashes: the stored URL is the given one up to a run of
    slashes at the end and does not end in a slash; without a base URL the
    stored one is the production URL.  No sequence of searches and status
    checks changes the client object, so the API key and the base URL stay
    what construction made them. *)
Theorem configuration_fixed (key : string) (given : option string)
    (cs : list call) (log : list Request) :
  let client := __init__ key given in
  api_key client = key ∧
  base_url client = rstrip "/" (default default_base_url given) ∧
  (∃ n, default default_base_url given
        = base_url client +:+ replicate_char n "/") ∧
  (∀ t, base_url client ≠ t +:+ "/") ∧
  base_url (__init__ key None) = default_base_url ∧
  api_key (self (run_calls cs {| self := client; sent := log |})) = key ∧
  base_url (self (run_calls cs {| self := client; sent := log |}))
  = base_url client ∧
  ∀ w, self (run_calls cs w) = self w.
Proof.
  simpl. split_and!; try done.
  - apply rstrip_decompose.
  - intros t. apply rstrip_no_trailing.
  - by rewrite run_calls_self.
  - by rewrite run_calls_self.
  - apply run_calls_self.
Qed.

(** C9.  The range check reads the parameter [max_limit] only.  With
    [max_limit] in range and an extra keyword [maxLimit], whatever its
    value, the search is not rejected: the request goes out, its body
    holds the extra keyword's value under [maxLimit], and when the service
    answers 200 with an envelope whose records decode, the search returns
    them. *)
Theorem extra_maxLimit_not_validated a w (v : value) :
  1 ≤ max_limit a ≤ 500 →
  kwargs a !! "maxLimit" = Some v →
  (∃ request body,
     sent (snd (get_hadiths a w)) = sent w ++ [request] ∧
     json request = Some body ∧
     body !! "maxLimit" = Some v) ∧
  (∀ r j resp hs,
     transport (sent w) (search_request (self w) a) = Ok r →
     status_code r = 200 →
     Response_json r = Ok j →
     APIResponse_from_dict j = Ok resp →
     list_comprehension Hadith_from_dict (APIResponse_data resp) = Ok hs →
     fst (get_hadiths a w) = Ok hs).
Proof.
  intros Hin Hkw. split.
  - exists (search_request (self w) a), (build_params a). split_and!.
    + by rewrite get_hadiths_sends.
    + done.
    + by apply build_params_kwargs.
  - intros r j resp hs Ht Hs Hj Hresp Hhs.
    rewrite (get_hadiths_envelope a w r j resp); try done.
    by rewrite handle_response_200.
Qed.

(** C10, as amended.  For a status other than 200 the error of a status
    check has the message [Status check failed: ] followed by the status
    code in decimal and nothing else.  It contains the code; the body of
    the response takes no part in it, so two responses with the same
    status give the same error whatever their bodies are; and the body
    text occurs in it only when it occurs in that fixed text, hence never
    when the body is longer than the message.  The generic error of a
    search, for a status without a row of its own, has the message
    [API error: ], the code, a dash and the text of the response, and
    contains both. *)
Theorem status_error_omits_body w w' r r' :
  transport (sent w) (status_request (self w)) = Ok r →
  transport (sent w') (status_request (self w')) = Ok r' →
  status_code r ≠ 200 →
  status_code r' = status_code r →
  fst (check_status w)
  = Raise (DeenAPIError ("Status check failed: " +:+ str_int (status_code r))) ∧
  contains (str_int (status_code r))
    ("Status check failed: " +:+ str_int (status_code r)) = true ∧
  fst (check_status w') = fst (check_status w) ∧
  (contains (text r) ("Status check failed: " +:+ str_int (status_code r))
   = true ↔
   ∃ p q, "Status check failed: " +:+ str_int (status_code r)
          = p +:+ text r +:+ q) ∧
  ((String.length ("Status check failed: " +:+ str_int (status_code r))
    < String.length (text r))%nat →
   contains (text r) ("Status check failed: " +:+ str_int (status_code r))
   = false) ∧
  ∀ a, 1 ≤ max_limit a ≤ 500 →
       transport (sent w) (search_request (self w) a) = Ok r →
       unmapped (status_code r) →
       fst (get_hadiths a w)
       = Raise (DeenAPIError ("API error: " +:+ str_int (status_code r)
                              +:+ " - " +:+ text r)) ∧
       contains (str_int (status_code r))
         ("API error: " +:+ str_int (status_code r) +:+ " - " +:+ text r)
       = true ∧
       contains (text r)
         ("API error: " +:+ str_int (status_code r) +:+ " - " +:+ text r)
       = true.
Proof.
  intros Ht Ht' Hs Hs'. split_and!.
  - by apply check_status_not_200.
  - apply contains_app_l, contains_refl.
  - rewrite (check_status_not_200 w r), (check_status_not_200 w' r'); try done.
    + by rewrite Hs'.
    + by rewrite Hs'.
  - apply contains_spec.
  - apply contains_longer.
  - intros a Hin Hta Hun. split_and!.
    + apply (get_hadiths_status_failure a w r); try done.
      by apply handle_response_other.
    + apply generic_message_contains.
    + apply generic_message_contains.
Qed.

End properties.

(** ** The claims on mocked services *)

(** The service answers 403 Forbidden to a search with default arguments:
    the generic error, with the code and the text in its message. *)
Lemma search_status_table_witness :
  ∃ msg,
    fst (@get_hadiths service_forbidden default_args
           (@fresh_world service_forbidden "secret" None))
    = Raise (DeenAPIError msg) ∧
    contains "403" msg = true ∧
    contains "Forbidden" msg = true.
Proof.
  assert (1 ≤ max_limit default_args ≤ 500) as Hin by (simpl; lia).
  destruct (@search_status_table service_forbidden default_args
              (@fresh_world service_forbidden "secret" None) forbidden Hin
              eq_refl)
    as (_ & _ & _ & _ & _ & _ & Hother & _).
  apply Hother. unfold unmapped. simpl. lia.
Defined.

(** Limits 1 and 500 send the request; limits 0 and 501 raise [ValueError]
    and send nothing. *)
Lemma max_limit_validation_witness :
  let w := @fresh_world service_forbidden "secret" None in
  (sent (snd (@get_hadiths service_forbidden (with_limit 1) w))
   = sent w ++ [@search_request (self w) (with_limit 1)]) ∧
  (sent (snd (@get_hadiths service_forbidden (with_limit 500) w))
   = sent w ++ [@search_request (self w) (with_limit 500)]) ∧
  (∃ msg, @get_hadiths service_forbidden (with_limit 0) w
          = (Raise (ValueError msg), w)) ∧
  (∃ msg, @get_hadiths service_forbidden (with_limit 501) w
          = (Raise (ValueError msg), w)).
Proof.
  intros w. split_and!.
  - apply (@max_limit_validation service_forbidden (with_limit 1) w). simpl. lia.
  - apply (@max_limit_validation service_forbidden (with_limit 500) w). simpl. lia.
  - apply (@max_limit_validation service_forbidden (with_limit 0) w). simpl. lia.
  - apply (@max_limit_validation service_forbidden (with_limit 501) w). simpl. lia.
Defined.

(** C3, as stated, fails.  [client.get_hadiths(hadithNumber=None)] is a
    call Python accepts, no parameter has the name [hadithNumber]; the
    caller has given no value for the hadith number, and yet the body that
    goes out has the key [hadithNumber] (bound to [None]). *)
Lemma filters_iff_supplied_fails :
  let w := @fresh_world service_two_records "secret" None in
  valid_kwargs (kwargs null_number_args) = true ∧
  hadith_number null_number_args = None ∧
  sent (snd (@get_hadiths service_two_records null_number_args w))
  = [search_request (self w) null_number_args] ∧
  json (search_request (self w) null_number_args)
  = Some (build_params null_number_args) ∧
  build_params null_number_args !! "hadithNumber" = Some VNone ∧
  ¬ filters_iff_supplied null_number_args (build_params null_number_args).
Proof.
  intros w. split_and!.
  - reflexivity.
  - reflexivity.
  - rewrite (@get_hadiths_sends service_two_records); [done|simpl; lia].
  - reflexivity.
  - reflexivity.
  - intros Hclaim.
    destruct (Hclaim "hadithNumber" None) as [Hsome _]; [in_list|].
    destruct Hsome as [? [=]]. by eexists.
Qed.

(** The body of [client.get_hadiths(hadithNumber=None)]. *)
Lemma request_body_contents_witness :
  let w := @fresh_world service_two_records "secret" None in
  ∃ request body,
    sent (snd (@get_hadiths service_two_records null_number_args w))
    = sent w ++ [request] ∧
    json request = Some body ∧
    body !! "hadithNumber" = Some VNone ∧
    (is_Some (body !! "hadithNumber") ↔
       is_Some (hadith_number null_number_args) ∨
       is_Some (kwargs null_number_args !! "hadithNumber")) ∧
    (is_Some (body !! "book") ↔ is_Some (book null_number_args)) ∧
    body !! "language" = Some (VStr "English").
Proof.
  intros w.
  assert (1 ≤ max_limit null_number_args ≤ 500) as Hin by (simpl; lia).
  destruct (@request_body_contents service_two_records null_number_args w Hin)
    as (request & body & Hsent & Hjson & Hextra & Hfilter & _ & _ & _ & _ & _
        & Hvalid).
  exists request, body. split_and!; try done.
  - by apply Hextra.
  - apply (Hfilter "hadithNumber" (hadith_number null_number_args)). in_list.
  - by apply Hvalid.
  - by apply Hvalid.
Defined.

(** Two records in the envelope, two Hadiths in the result, in that order. *)
Lemma search_results_follow_records_witness :
  fst (@get_hadiths service_two_records (with_limit 2)
         (@fresh_world service_two_records "secret" None))
  = Ok [sample_hadith "1"; sample_hadith "2"].
Proof.
  apply (@search_results_follow_records service_two_records).
  split; [simpl; lia|].
  exists two_records, (sample_envelope [sample_record "1"; sample_record "2"]).
  eexists. split_and!; try reflexivity.
  repeat constructor.
Defined.



(** [client.get_hadiths(maxLimit=1000)]: 1000 is out of range, the request
    goes out with it and the records come back. *)
Lemma extra_maxLimit_not_validated_witness :
  let w := @fresh_world service_two_records "secret" None in
  ¬ (1 ≤ 1000 ≤ 500) ∧
  (∃ request body,
     sent (snd (@get_hadiths service_two_records oversized_args w))
     = sent w ++ [request] ∧
     json request = Some body ∧
     body !! "maxLimit" = Some (VInt 1000)) ∧
  fst (@get_hadiths service_two_records oversized_args w)
  = Ok [sample_hadith "1"; sample_hadith "2"].
Proof.
  intros w.
  assert (1 ≤ max_limit oversized_args ≤ 500) as Hin by (simpl; lia).
  assert (kwargs oversized_args !! "maxLimit" = Some (VInt 1000)) as Hkw
    by reflexivity.
  destruct (@extra_maxLimit_not_validated service_two_records oversized_args
              w (VInt 1000) Hin Hkw) as [Hbody Hresult].
  split_and!; [lia|done|].
  by apply (Hresult two_records
              (sample_envelope [sample_record "1"; sample_record "2"])
              {| models.data := [sample_record "1"; sample_record "2"];
                 models.payload :=
                   sample_envelope [sample_record "1"; sample_record "2"] |}).
Defined.

(** C10, as stated, fails.  A service answers a status check with 403 and
    the body [403]: the message of the error contains the body text. *)
Lemma status_error_may_contain_body :
  let w := @fresh_world service_echo "secret" None in
  @transport service_echo (sent w) (status_request (self w)) = Ok forbidden_echo ∧
  status_code forbidden_echo ≠ 200 ∧
  fst (@check_status service_echo w)
  = Raise (DeenAPIError "Status check failed: 403") ∧
  contains (text forbidden_echo) "Status check failed: 403" = true.
Proof. intros w. split_and!; [reflexivity|simpl; lia|reflexivity|reflexivity]. Qed.

(** Two status checks in a row, both refused with 403, the second with
    another and longer body: the same error both times, the code alone in
    its message; the search that follows reports the code and the body. *)
Lemma status_error_omits_body_witness :
  let first := @fresh_world service_two_refusals "secret" None in
  let second := snd (@check_status service_two_refusals first) in
  text forbidden ≠ text denied ∧
  fst (@check_status service_two_refusals second)
  = Raise (DeenAPIError "Status check failed: 403") ∧
  contains "403" "Status check failed: 403" = true ∧
  fst (@check_status service_two_refusals first)
  = fst (@check_status service_two_refusals second) ∧
  contains (text denied) "Status check failed: 403" = false ∧
  fst (@get_hadiths service_two_refusals default_args second)
  = Raise (DeenAPIError
             "API error: 403 - Access denied: this key may not be used") ∧
  contains (text denied)
    "API error: 403 - Access denied: this key may not be used" = true.
Proof.
  intros first second.
  assert (status_code denied ≠ 200) as Hs by (simpl; lia).
  destruct (@status_error_omits_body service_two_refusals second first denied
              forbidden eq_refl eq_refl Hs eq_refl)
    as (Hstatus & Hcode & Hsame & _ & Hlong & Hsearch).
  destruct (Hsearch default_args) as (Hgeneric & _ & Htext).
  - simpl. lia.
  - reflexivity.
  - unfold unmapped. simpl. lia.
  - split_and!; [discriminate|exact Hstatus|exact Hcode|exact Hsame| |
                 exact Hgeneric|exact Htext].
    apply Hlong. vm_compute. lia.
Defined.

(** * Further properties of the client *)

(** ** Trailing slashes *)

Section trailing_slashes.

#[local] Arguments String.append !s1 s2 : simpl nomatch.

Lemma rstrip_run (c : ascii) (n : nat) : rstrip c (replicate_char n c) = "".
Proof.
  induction n as [|n IH]; simpl; [done|].
  by rewrite IH, Ascii.eqb_refl.
Qed.

Lemma rstrip_app_run (c : ascii) (s : string) (n : nat) :
  rstrip c (s +:+ replicate_char n c) = rstrip c s.
Proof.
  induction s as [|a s IH]; simpl.
  - apply rstrip_run.
  - by rewrite IH.
Qed.

Lemma replicate_char_snoc (c : ascii) (n : nat) :
  replicate_char (S n) c = replicate_char n c +:+ String c "".
Proof. induction n as [|n IH]; [done|]. simpl in *. by rewrite <- IH. Qed.

Lemma append_assoc (s t u : string) : (s +:+ t) +:+ u = s +:+ t +:+ u.
Proof. induction s as [|a s IH]; simpl; congruence. Qed.

Lemma append_empty_r (s : string) : s +:+ "" = s.
Proof. induction s as [|a s IH]; simpl; congruence. Qed.

Lemma rstrip_fixed (c : ascii) (s : string) :
  rstrip c s = s ↔ ∀ t, s ≠ t +:+ String c "".
Proof.
  split.
  - intros Hs t Ht. rewrite <- Hs in Ht. by apply rstrip_no_trailing in Ht.
  - intros Hend. destruct (rstrip_decompose c s) as [[|n] Hn].
    + simpl in Hn. by rewrite append_empty_r in Hn.
    + rewrite replicate_char_snoc, <- append_assoc in Hn.
      by apply Hend in Hn.
Qed.

Lemma rstrip_idempotent (c : ascii) (s : string) :
  rstrip c (rstrip c s) = rstrip c s.
Proof. apply rstrip_fixed. intros t. apply rstrip_no_trailing. Qed.

End trailing_slashes.

(** ** Requests, exceptions and sequences of calls *)

Ltac unfold_methods :=
  unfold get_hadiths, check_status, _make_request,
    try_except_RequestException, bind, lift, raise, get_self,
    Session_post, Session_get, Session_request.

Section further_properties.
Context `{Externals}.

Implicit Types (a : search_args) (w : World) (r : Response).

Lemma or_empty_default (params : option (gmap string value)) :
  or_empty params = default ∅ params.
Proof. destruct params as [d|]; [apply or_empty_Some|done]. Qed.

Lemma list_comprehension_first_failure {A B : Type} (f : A → result B)
    (good rest : list A) (bad : A) (e : exn) :
  Forall (λ x, ∃ y, f x = Ok y) good →
  f bad = Raise e →
  list_comprehension f (good ++ bad :: rest) = Raise e.
Proof.
  intros Hgood Hbad. induction Hgood as [|x good [y Hx] _ IH]; simpl.
  - by rewrite Hbad.
  - rewrite Hx. simpl. by rewrite IH.
Qed.

Lemma run_call_sent (c : call) w :
  sent (run_call c w) = sent w ++ call_requests (self w) c.
Proof.
  destruct c as [a|]; simpl.
  - destruct (decide (1 ≤ max_limit a ≤ 500)) as [Hin|Hout].
    + rewrite get_hadiths_sends by done. simpl.
      destruct (Z.leb_spec 1 (max_limit a)); [|lia].
      destruct (Z.leb_spec (max_limit a) 500); [done|lia].
    + destruct (get_hadiths_rejects a w Hout) as [msg ->]. simpl.
      destruct (Z.leb_spec 1 (max_limit a)); simpl;
        [destruct (Z.leb_spec (max_limit a) 500); [lia|]|];
        by rewrite app_nil_r.
  - by rewrite check_status_sends.
Qed.

Lemma run_calls_sent (cs : list call) w :
  sent (run_calls cs w) = sent w ++ flat_map (call_requests (self w)) cs.
Proof.
  revert w. induction cs as [|c cs IH]; intros w.
  - simpl. by rewrite app_nil_r.
  - change (run_calls (c :: cs) w) with (run_calls cs (run_call c w)).
    rewrite IH, run_call_self, run_call_sent. simpl. by rewrite app_assoc.
Qed.

Lemma call_requests_headers (c : Client) (k : call) (request : Request) :
  request ∈ call_requests c k → req_headers request = headers (session c).
Proof.
  destruct k as [a|]; simpl.
  - destruct ((1 <=? max_limit a) && (max_limit a <=? 500)).
    + intros ->%list_elem_of_singleton. done.
    + by intros ?%elem_of_nil.
  - intros ->%list_elem_of_singleton. done.
Qed.

(** X1.  Whatever a caller does with a freshly constructed client, every
    request that reaches the transport carries the API key under
    [X-API-Key] and [application/json] under [Content-Type]; every other
    header is the session's default. *)
Theorem every_request_carries_the_key (key : string) (given : option string)
    (cs : list call) (request : Request) :
  request ∈ sent (run_calls cs (fresh_world key given)) →
  req_headers request !! "X-API-Key" = Some key ∧
  req_headers request !! "Content-Type" = Some "application/json" ∧
  ∀ h, h ≠ "X-API-Key" → h ≠ "Content-Type" →
       req_headers request !! h = default_headers !! h.
Proof.
  rewrite run_calls_sent. simpl.
  intros Hin. apply list_elem_of_In, in_flat_map in Hin as (c & _ & Hin).
  apply list_elem_of_In, call_requests_headers in Hin. rewrite Hin.
  unfold Session_headers_update, dict_update. simpl. split_and!.
  - apply lookup_union_Some_l. by simplify_map_eq.
  - apply lookup_union_Some_l. by simplify_map_eq.
  - intros h ? ?. apply lookup_union_r. by simplify_map_eq.
Qed.

(** X2.  A sequence of calls appends to the log, one call after the other,
    the search request of every search whose limit is in range and the
    status request of every status check, all built from the client as it
    was at the start; what was logged before stays, and nothing the
    transport answers changes what is sent. *)
Theorem requests_follow_the_calls (cs : list call) w :
  sent (run_calls cs w) = sent w ++ flat_map (call_requests (self w)) cs ∧
  (length (sent (run_calls cs w)) ≤ length (sent w) + length cs)%nat.
Proof.
  split; [apply run_calls_sent|].
  rewrite run_calls_sent, length_app. apply Nat.add_le_mono_l.
  induction cs as [|c cs IH]; simpl; [done|].
  rewrite length_app.
  assert (length (call_requests (self w) c) ≤ 1)%nat; [|lia].
  destruct c as [a|]; simpl; [|done].
  destruct ((1 <=? max_limit a) && (max_limit a <=? 500)); simpl; lia.
Qed.

(** X3.  Slashes at the end of the base URL make no difference: a URL
    followed by any number of slashes gives the client the URL alone
    gives, a base URL made of slashes only is stored as the empty string,
    and a stored base URL given to the constructor again comes out as it
    went in. *)
Theorem trailing_slashes_ignored (key u : string) (n : nat)
    (given : option string) :
  __init__ key (Some (u +:+ replicate_char n "/")) = __init__ key (Some u) ∧
  base_url (__init__ key (Some (replicate_char n "/"))) = "" ∧
  base_url (__init__ key (Some (base_url (__init__ key given))))
  = base_url (__init__ key given).
Proof.
  unfold __init__. simpl. split_and!.
  - by rewrite rstrip_app_run.
  - apply rstrip_run.
  - apply rstrip_idempotent.
Qed.

(** X4.  The constructor stores a base URL as it was given exactly when the
    URL does not end in a slash. *)
Theorem base_url_kept_iff_no_trailing_slash (key u : string) :
  base_url (__init__ key (Some u)) = u ↔ ∀ t, u ≠ t +:+ "/".
Proof. unfold __init__. simpl. apply rstrip_fixed. Qed.

(** X5.  A search gives no partial result.  When the records up to some
    position decode and the record at that position does not, the search
    raises that record's exception as it is, whatever the later records
    would have done; the exception is not rewritten, even if it is a
    [requests] exception, because the records are decoded outside the
    [try] block. *)
Theorem search_stops_at_first_bad_record a w r (v : value)
    (resp : APIResponse) (good rest : list value) (bad : value) (e : exn) :
  1 ≤ max_limit a ≤ 500 →
  transport (sent w) (search_request (self w) a) = Ok r →
  status_code r = 200 →
  Response_json r = Ok v →
  APIResponse_from_dict v = Ok resp →
  APIResponse_data resp = good ++ bad :: rest →
  Forall (λ item, ∃ h, Hadith_from_dict item = Ok h) good →
  Hadith_from_dict bad = Raise e →
  fst (get_hadiths a w) = Raise e.
Proof.
  intros Hin Ht Hs Hv Hresp Hdata Hgood Hbad.
  rewrite (get_hadiths_envelope a w r v resp); try done.
  - rewrite Hdata. by apply list_comprehension_first_failure.
  - by rewrite handle_response_200.
Qed.

(** X6.  An exception that is not a [requests] exception passes through a
    search unchanged, whether the transport raises it, [Response.json()]
    raises it on a 200 response, or the envelope decoder raises it. *)
Theorem search_passes_other_exceptions a w (e : exn) :
  1 ≤ max_limit a ≤ 500 →
  is_RequestException e = false →
  transport (sent w) (search_request (self w) a) = Raise e ∨
  (∃ r, transport (sent w) (search_request (self w) a) = Ok r ∧
        status_code r = 200 ∧
        (Response_json r = Raise e ∨
         ∃ v, Response_json r = Ok v ∧ APIResponse_from_dict v = Raise e)) →
  fst (get_hadiths a w) = Raise e.
Proof.
  intros Hin He Hcase.
  destruct Hcase as [Ht|(r & Ht & Hs & [Hj|(v & Hj & Hv)])].
  - unfold_methods. rewrite or_empty_Some.
    destruct (Z.gtb_spec (max_limit a) 500); [lia|].
    destruct (Z.ltb_spec (max_limit a) 1); [lia|].
    unfold search_request in Ht. rewrite Ht. by rewrite He.
  - apply (get_hadiths_status_failure a w r); try done.
    by rewrite handle_response_200.
  - unfold_methods. rewrite or_empty_Some.
    destruct (Z.gtb_spec (max_limit a) 500); [lia|].
    destruct (Z.ltb_spec (max_limit a) 1); [lia|].
    unfold search_request in Ht. rewrite Ht.
    rewrite (handle_response_200 r Hs), Hj, Hv. by rewrite He.
Qed.

(** X7.  [_make_request] sends exactly one POST request to the endpoint
    under the base URL, with the session's headers and always with a JSON
    body: the parameters when there are some, the empty object when there
    are none or when the dictionary is empty. *)
Theorem make_request_always_posts_a_body (endpoint : string)
    (params : option (gmap string value)) w :
  sent (snd (_make_request endpoint params w))
  = sent w ++ [{| method := POST;
                  url := base_url (self w) +:+ "/" +:+ endpoint;
                  req_headers := headers (session (self w));
                  json := Some (default ∅ params) |}] ∧
  self (snd (_make_request endpoint params w)) = self w.
Proof.
  unfold_methods. rewrite or_empty_default.
  destruct (transport _ _) as [r|e].
  - destruct (_handle_response r) as [v|e].
    + destruct (APIResponse_from_dict v) as [resp|e]; [done|].
      by destruct (is_RequestException e).
    + by destruct (is_RequestException e).
  - by destruct (is_RequestException e).
Qed.

(** X8.  No [requests] exception leaves [_make_request]: whatever the
    transport, the status handling and the envelope decoder do, its
    result is never a [RequestException]. *)
Theorem make_request_never_raises_RequestException (endpoint : string)
    (params : option (gmap string value)) w (d : string) :
  fst (_make_request endpoint params w) ≠ Raise (RequestException d).
Proof.
  unfold_methods.
  destruct (transport _ _) as [r|e].
  - destruct (_handle_response r) as [v|e].
    + destruct (APIResponse_from_dict v) as [resp|e]; [done|].
      by destruct e.
    + by destruct e.
  - by destruct e.
Qed.

(** X9.  No [requests] exception leaves [check_status] either. *)
Theorem check_status_never_raises_RequestException w (d : string) :
  fst (check_status w) ≠ Raise (RequestException d).
Proof.
  unfold_methods.
  destruct (transport _ _) as [r|e].
  - destruct (status_code r =? 200).
    + destruct (Response_json r) as [v|e]; [done|]. by destruct e.
    + done.
  - by destruct e.
Qed.

(** X10.  When a status check gets a 200 response whose body
    [Response.json()] cannot decode, a [requests] exception is reported as
    a failed status request, with its description, and any other
    exception passes through unchanged. *)
Theorem check_status_undecodable_body w r (e : exn) :
  transport (sent w) (status_request (self w)) = Ok r →
  status_code r = 200 →
  Response_json r = Raise e →
  fst (check_status w)
  = if is_RequestException e
    then Raise (DeenAPIError ("Status check request failed: " +:+ str_exn e))
    else Raise e.
Proof.
  intros Ht Hs Hj. unfold_methods. unfold status_request in Ht.
  rewrite Ht, Hs. simpl. rewrite Hj. by destruct (is_RequestException e).
Qed.

End further_properties.

(** ** The further properties on mocked services *)

(** A status check and a search on a fresh client: the status request that
    went out carries the key. *)
Lemma every_request_carries_the_key_witness :
  let w := @fresh_world service_forbidden "secret" (Some "https://example.org/api//") in
  status_request (self w)
    ∈ sent (@run_calls service_forbidden
              [call_check_status; call_get_hadiths default_args] w) ∧
  req_headers (status_request (self w)) !! "X-API-Key" = Some "secret" ∧
  req_headers (status_request (self w)) !! "Content-Type"
  = Some "application/json".
Proof.
  intros w.
  assert (status_request (self w)
            ∈ sent (@run_calls service_forbidden
                      [call_check_status; call_get_hadiths default_args] w))
    as Hin.
  { apply list_elem_of_In. vm_compute. left. reflexivity. }
  split; [exact Hin|].
  destruct (@every_request_carries_the_key service_forbidden "secret"
              (Some "https://example.org/api//")
              [call_check_status; call_get_hadiths default_args]
              (status_request (self w)) Hin) as (Hkey & Htype & _).
  by split.
Defined.

(** Three records, the second not an object: the search raises the second
    record's error and returns nothing. *)
Lemma search_stops_at_first_bad_record_witness :
  fst (@get_hadiths service_bad_record (with_limit 3)
         (@fresh_world service_bad_record "secret" None))
  = Raise (OtherException "TypeError: record").
Proof.
  apply (@search_stops_at_first_bad_record service_bad_record (with_limit 3)
           (@fresh_world service_bad_record "secret" None) two_records
           (sample_envelope [sample_record "1"; VNone; sample_record "3"])
           {| models.data := [sample_record "1"; VNone; sample_record "3"];
              models.payload :=
                sample_envelope [sample_record "1"; VNone; sample_record "3"] |}
           [sample_record "1"] [sample_record "3"] VNone).
  - simpl. lia.
  - reflexivity.
  - reflexivity.
  - reflexivity.
  - reflexivity.
  - reflexivity.
  - constructor; [|constructor]. by eexists.
  - reflexivity.
Defined.

(** An envelope without [data]: the decoder's error reaches the caller as
    it is. *)
Lemma search_passes_other_exceptions_witness :
  fst (@get_hadiths service_no_data default_args
         (@fresh_world service_no_data "secret" None))
  = Raise (OtherException "KeyError: data").
Proof.
  apply (@search_passes_other_exceptions service_no_data).
  - simpl. lia.
  - reflexivity.
  - right. exists two_records. split_and!; [reflexivity..|].
    right. exists (VDict []). by split.
Defined.

(** A 200 response with a body that is not JSON, on a status check. *)
Lemma check_status_undecodable_body_witness :
  fst (@check_status service_garbled
         (@fresh_world service_garbled "secret" None))
  = Raise (DeenAPIError "Status check request failed: Expecting value").
Proof.
  apply (@check_status_undecodable_body service_garbled
           (@fresh_world service_garbled "secret" None) two_records
           (RequestException "Expecting value")); reflexivity.
Defined.

(** ** What reaches the service *)

Section logged_requests.
Context `{Externals}.

Implicit Types (a : search_args) (w : World).

Lemma call_requests_shape (c : Client) (k : call) (request : Request) :
  request ∈ call_requests c k →
  (∃ a, k = call_get_hadiths a ∧ 1 ≤ max_limit a ≤ 500 ∧
        request = search_request c a) ∨
  (k = call_check_status ∧ request = status_request c).
Proof.
  destruct k as [a|]; simpl.
  - destruct (Z.leb_spec 1 (max_limit a)); simpl;
      [destruct (Z.leb_spec (max_limit a) 500)|]; simpl.
    + intros ->%list_elem_of_singleton. left. exists a. split_and!; done.
    + by intros ?%elem_of_nil.
    + by intros ?%elem_of_nil.
  - intros ->%list_elem_of_singleton. by right.
Qed.

Lemma logged_request_origin (cs : list call) w (request : Request) :
  sent w = [] →
  request ∈ sent (run_calls cs w) →
  ∃ k, k ∈ cs ∧ request ∈ call_requests (self w) k.
Proof.
  intros Hempty. rewrite run_calls_sent, Hempty. simpl.
  intros Hin. apply list_elem_of_In, in_flat_map in Hin as (k & Hk & Hin).
  exists k. by rewrite !list_elem_of_In.
Qed.

(** X11.  As long as no search passes an extra keyword [maxLimit], every
    search request that reaches the service carries under [maxLimit] an
    integer between 1 and 500: the check on the parameter and the building
    of the body together keep any other limit from going out. *)
Theorem sent_limits_are_in_range (cs : list call) w (request : Request) :
  sent w = [] →
  (∀ a, call_get_hadiths a ∈ cs → kwargs a !! "maxLimit" = None) →
  request ∈ sent (run_calls cs w) →
  method request = POST →
  ∃ body n, json request = Some body ∧
            body !! "maxLimit" = Some (VInt n) ∧
            1 ≤ n ≤ 500.
Proof.
  intros Hempty Hextra Hin Hpost.
  destruct (logged_request_origin cs w request Hempty Hin) as (k & Hk & Hreq).
  apply call_requests_shape in Hreq as [(a & -> & Hrange & ->)|[_ ->]].
  - exists (build_params a), (max_limit a). split_and!; try done; try lia.
    apply build_params_maxLimit. by apply Hextra.
  - done.
Qed.

(** X12.  The client talks to two addresses and no other: every request it
    sends is either a POST to the base URL followed by [/hadiths], with a
    JSON body, or a GET to the base URL followed by [/status], without
    one. *)
Theorem requests_go_to_two_endpoints (cs : list call) w (request : Request) :
  sent w = [] →
  request ∈ sent (run_calls cs w) →
  (method request = POST ∧
   url request = base_url (self w) +:+ "/hadiths" ∧
   is_Some (json request)) ∨
  (method request = GET ∧
   url request = base_url (self w) +:+ "/status" ∧
   json request = None).
Proof.
  intros Hempty Hin.
  destruct (logged_request_origin cs w request Hempty Hin) as (k & Hk & Hreq).
  apply call_requests_shape in Hreq as [(a & -> & Hrange & ->)|[_ ->]].
  - left. split_and!; [done|done|by eexists].
  - by right.
Qed.

End logged_requests.

(** A search with limit 500, a search with limit 501 and a status check on
    a fresh client: the one search request that went out carries 500. *)
Lemma sent_limits_are_in_range_witness :
  let w := @fresh_world service_two_records "secret" None in
  ∃ body n, json (search_request (self w) (with_limit 500)) = Some body ∧
            body !! "maxLimit" = Some (VInt n) ∧
            1 ≤ n ≤ 500.
Proof.
  intros w.
  apply (@sent_limits_are_in_range service_two_records
           [call_get_hadiths (with_limit 500); call_get_hadiths (with_limit 501);
            call_check_status] w).
  - reflexivity.
  - intros a Ha. apply list_elem_of_In in Ha. simpl in Ha.
    destruct Ha as [[= <-]|[[= <-]|[Ha|[]]]]; [reflexivity|reflexivity|].
    discriminate Ha.
  - apply list_elem_of_In. vm_compute. left. reflexivity.
  - reflexivity.
Defined.

(** The same three calls: the search request is a POST to [/hadiths] under
    the production URL. *)
Lemma requests_go_to_two_endpoints_witness :
  let w := @fresh_world service_two_records "secret" None in
  let request := search_request (self w) (with_limit 500) in
  (method request = POST ∧
   url request = base_url (self w) +:+ "/hadiths" ∧
   is_Some (json request)) ∨
  (method request = GET ∧
   url request = base_url (self w) +:+ "/status" ∧
   json request = None).
Proof.
  intros w request.
  apply (@requests_go_to_two_endpoints service_two_records
           [call_get_hadiths (with_limit 500); call_get_hadiths (with_limit 501);
            call_check_status] w).
  - reflexivity.
  - apply list_elem_of_In. vm_compute. left. reflexivity.
Defined.
